(** * DogNFT API (src/api.py): a shallow embedding and its properties

    The service is a FastAPI application over one SQLAlchemy table, [nfts].
    The table is modelled as the list of its committed rows in insertion
    (rowid) order, the handlers as computations in a small state-and-error
    monad over that list, and the dictionaries the handlers return as
    association lists of JSON values. Each response model declares the
    keys of the dictionary its handler returns, so the dictionary is the
    body of the HTTP response. *)

From Stdlib Require Import List String Ascii ZArith Lia Bool Arith.
From Stdlib Require Import DecimalString DecimalNat FinFun.
Import ListNotations.
Open Scope string_scope.

(** ** Python values *)

(** [str(n)] for a non-negative integer, as used by the f-string of the id. *)
Definition str_of_nat (n : nat) : string :=
  NilEmpty.string_of_uint (Nat.to_uint n).

Fixpoint zeros (n : nat) : string :=
  match n with
  | O => ""
  | S n' => String "0" (zeros n')
  end.

(** [%0<width>d] *)
Definition zfill (width n : nat) : string :=
  let s := str_of_nat n in zeros (width - String.length s) ++ s.

(** A naive [datetime], as [datetime.utcnow()] returns it. *)
Record datetime := mkDatetime {
  year : nat; month : nat; day : nat;
  hour : nat; minute : nat; second : nat; microsecond : nat
}.

(** [datetime.isoformat()]: the fraction is printed only when non-zero. *)
Definition isoformat (d : datetime) : string :=
  zfill 4 (year d) ++ "-" ++ zfill 2 (month d) ++ "-" ++ zfill 2 (day d) ++ "T" ++
  zfill 2 (hour d) ++ ":" ++ zfill 2 (minute d) ++ ":" ++ zfill 2 (second d) ++
  (if Nat.eqb (microsecond d) 0 then "" else "." ++ zfill 6 (microsecond d)).

#[local] Set Warnings "-register-all".

(** JSON values; a Python [dict] literal is the association list of its
    items in the order they are written. *)
Inductive json :=
| JNull
| JBool (b : bool)
| JInt (z : Z)
| JStr (s : string)
| JList (l : list json)
| JDict (d : list (string * json)).

Definition dict := list (string * json).

Fixpoint get (k : string) (d : dict) : option json :=
  match d with
  | [] => None
  | (k', v) :: d' => if String.eqb k' k then Some v else get k d'
  end.

Definition json_of_str (o : option string) : json :=
  match o with Some s => JStr s | None => JNull end.

Definition json_of_dicts (o : option (list dict)) : json :=
  match o with Some l => JList (map JDict l) | None => JNull end.

(** [x.isoformat() if x else None] *)
Definition json_of_datetime (o : option datetime) : json :=
  match o with Some d => JStr (isoformat d) | None => JNull end.

(** ** The table [nfts] (class [NFT]) *)

Module NFT.
Record t := mk {
  id : string;
  name : string;
  description : option string;
  dogKey : string;
  walletAddress : string;
  attributes : option (list dict);
  status : string;
  progress : Z;
  imageUrl : option string;
  contractAddress : option string;
  tokenId : option string;
  createdAt : datetime;
  mintedAt : option datetime
}.

Definition set_progress (v : Z) (n : t) : t :=
  mk (id n) (name n) (description n) (dogKey n) (walletAddress n)
     (attributes n) (status n) v (imageUrl n) (contractAddress n)
     (tokenId n) (createdAt n) (mintedAt n).

Definition set_status (v : string) (n : t) : t :=
  mk (id n) (name n) (description n) (dogKey n) (walletAddress n)
     (attributes n) v (progress n) (imageUrl n) (contractAddress n)
     (tokenId n) (createdAt n) (mintedAt n).

Definition set_imageUrl (v : option string) (n : t) : t :=
  mk (id n) (name n) (description n) (dogKey n) (walletAddress n)
     (attributes n) (status n) (progress n) v (contractAddress n)
     (tokenId n) (createdAt n) (mintedAt n).
End NFT.

(** ** Request models *)

Module CheckNameRequest.
Record t := mk { name : string; walletAddress : string }.
End CheckNameRequest.

Module CheckKeyRequest.
Record t := mk { dogKey : string; walletAddress : string }.
End CheckKeyRequest.

Module GenerateNFTRequest.
Record t := mk {
  name : string;
  description : option string;
  dogKey : string;
  walletAddress : string;
  attributes : option (list dict)
}.
End GenerateNFTRequest.

(** ** The database session *)

(** Committed rows of [nfts], oldest first. *)
Definition database := list NFT.t.

Inductive exn :=
| HTTPException (status_code : Z) (detail : dict)
| IntegrityError.

(** A handler body: reads and writes the table, returns or raises. *)
Definition DB (A : Type) : Type := database -> database * (exn + A).

Definition ret {A} (a : A) : DB A := fun db => (db, inr a).

Definition raise {A} (e : exn) : DB A := fun db => (db, inl e).

Definition bind {A B} (m : DB A) (k : A -> DB B) : DB B :=
  fun db =>
    match m db with
    | (db', inr a) => k a db'
    | (db', inl e) => (db', inl e)
    end.

Notation "x <- m ;; k" := (bind m (fun x => k))
  (at level 61, m at next level, right associativity).
Notation "m ;;; k" := (bind m (fun _ => k))
  (at level 61, right associativity).

(** [db.query(NFT).filter(p).first()] *)
Definition query_first (p : NFT.t -> bool) : DB (option NFT.t) :=
  fun db => (db, inr (find p db)).

(** [db.query(NFT).filter(p).all()] *)
Definition query_all (p : NFT.t -> bool) : DB (list NFT.t) :=
  fun db => (db, inr (filter p db)).

Definition has_id (i : string) (row : NFT.t) : bool := String.eqb (NFT.id row) i.
Definition has_name (n : string) (row : NFT.t) : bool := String.eqb (NFT.name row) n.
Definition has_dogKey (k : string) (row : NFT.t) : bool := String.eqb (NFT.dogKey row) k.
Definition has_walletAddress (w : string) (row : NFT.t) : bool :=
  String.eqb (NFT.walletAddress row) w.

(** [db.add(obj); db.commit()]: the INSERT is refused when the primary key
    [id] or the unique column [dogKey] is already present. *)
Definition add_commit (obj : NFT.t) : DB unit :=
  fun db =>
    if existsb (has_id (NFT.id obj)) db || existsb (has_dogKey (NFT.dogKey obj)) db
    then (db, inl IntegrityError)
    else ((db ++ [obj])%list, inr tt).

(** [db.commit()] after attributes of the loaded object [obj] were assigned:
    the row with the object's primary key takes the object's state. *)
Definition commit (obj : NFT.t) : DB unit :=
  fun db =>
    (map (fun row => if has_id (NFT.id obj) row then obj else row) db, inr tt).

(** ** Handlers *)

Definition check_name (request : CheckNameRequest.t) : DB dict :=
  existing_nft <- query_first (has_name (CheckNameRequest.name request)) ;;
  match existing_nft with
  | Some _ =>
      ret [("available", JBool false); ("message", JStr "NFT name is already taken")]
  | None =>
      ret [("available", JBool true); ("message", JStr "NFT name is available")]
  end.

Definition check_key (request : CheckKeyRequest.t) : DB dict :=
  existing_key <- query_first (has_dogKey (CheckKeyRequest.dogKey request)) ;;
  match existing_key with
  | Some _ =>
      ret [("valid", JBool true); ("unique", JBool false);
           ("message", JStr "Dog key is valid but not unique")]
  | None =>
      ret [("valid", JBool true); ("unique", JBool true);
           ("message", JStr "Dog key is valid and unique")]
  end.

Definition DUPLICATE_KEY : exn :=
  HTTPException 400
    [("error", JStr "Dog key must be unique"); ("code", JStr "DUPLICATE_KEY")].

(** [utcnow] is the value [datetime.utcnow] yields for the column default of
    [createdAt]. [db.refresh] re-reads the row just inserted and is the
    identity on the object built here, whose defaults are already filled. *)
Definition generate_nft (request : GenerateNFTRequest.t) (utcnow : datetime)
  : DB dict :=
  existing_key <- query_first (has_dogKey (GenerateNFTRequest.dogKey request)) ;;
  match existing_key with
  | Some _ => raise DUPLICATE_KEY
  | None =>
      rows <- query_all (fun _ => true) ;;
      let new_nft :=
        NFT.mk ("nft_" ++ str_of_nat (List.length rows + 1))
               (GenerateNFTRequest.name request)
               (GenerateNFTRequest.description request)
               (GenerateNFTRequest.dogKey request)
               (GenerateNFTRequest.walletAddress request)
               (GenerateNFTRequest.attributes request)
               "generating" 0 None None None utcnow None in
      add_commit new_nft ;;;
      let new_nft := NFT.set_progress 50 new_nft in
      commit new_nft ;;;
      ret [("id", JStr (NFT.id new_nft));
           ("status", JStr (NFT.status new_nft));
           ("name", JStr (NFT.name new_nft));
           ("description", json_of_str (NFT.description new_nft));
           ("dogKey", JStr (NFT.dogKey new_nft));
           ("walletAddress", JStr (NFT.walletAddress new_nft));
           ("contractAddress", json_of_str (NFT.contractAddress new_nft));
           ("tokenId", json_of_str (NFT.tokenId new_nft));
           ("attributes", json_of_dicts (NFT.attributes new_nft));
           ("createdAt", JStr (isoformat (NFT.createdAt new_nft)));
           ("mintedAt", json_of_datetime (NFT.mintedAt new_nft));
           ("message", JStr "NFT generation started")]
  end.

Definition NFT_NOT_FOUND : exn :=
  HTTPException 404
    [("error", JStr "NFT not found"); ("code", JStr "NFT_NOT_FOUND")].

Definition image_url (id : string) : string :=
  "https://example.com/nft/" ++ id ++ ".png".

(** The assignments made to a row that is still ["generating"]. *)
Definition advance (id : string) (nft : NFT.t) : NFT.t :=
  let nft := NFT.set_progress (Z.min (NFT.progress nft + 25) 100) nft in
  if Z.eqb (NFT.progress nft) 100
  then NFT.set_imageUrl (Some (image_url id)) (NFT.set_status "ready" nft)
  else nft.

Definition status_dict (nft : NFT.t) : dict :=
  [("id", JStr (NFT.id nft));
   ("status", JStr (NFT.status nft));
   ("progress", JInt (NFT.progress nft));
   ("imageUrl", json_of_str (NFT.imageUrl nft));
   ("walletAddress", JStr (NFT.walletAddress nft));
   ("contractAddress", json_of_str (NFT.contractAddress nft));
   ("tokenId", json_of_str (NFT.tokenId nft));
   ("message", JStr "NFT status retrieved")].

Definition get_nft_status (id walletAddress : string) : DB dict :=
  nft <- query_first (fun row => has_id id row && has_walletAddress walletAddress row) ;;
  match nft with
  | None => raise NFT_NOT_FOUND
  | Some nft =>
      nft <- (if String.eqb (NFT.status nft) "generating"
              then let nft := advance id nft in commit nft ;;; ret nft
              else ret nft) ;;
      ret (status_dict nft)
  end.

Definition NO_NFTS : exn :=
  HTTPException 404
    [("error", JStr "No NFTs found for this wallet"); ("code", JStr "NO_NFTS")].

Definition collection_item (nft : NFT.t) : dict :=
  [("id", JStr (NFT.id nft));
   ("name", JStr (NFT.name nft));
   ("status", JStr (NFT.status nft));
   ("imageUrl", json_of_str (NFT.imageUrl nft));
   ("dogKey", JStr (NFT.dogKey nft));
   ("walletAddress", JStr (NFT.walletAddress nft));
   ("contractAddress", json_of_str (NFT.contractAddress nft));
   ("tokenId", json_of_str (NFT.tokenId nft));
   ("attributes", json_of_dicts (NFT.attributes nft));
   ("createdAt", JStr (isoformat (NFT.createdAt nft)));
   ("mintedAt", json_of_datetime (NFT.mintedAt nft))].

Definition get_nft_collection (walletAddress : string) : DB dict :=
  nfts <- query_all (has_walletAddress walletAddress) ;;
  match nfts with
  | [] => raise NO_NFTS
  | _ :: _ =>
      let nft_list := map collection_item nfts in
      ret [("nfts", JList (map JDict nft_list))]
  end.

(** ** The service as a transition system *)

Inductive call :=
| CheckName (request : CheckNameRequest.t)
| CheckKey (request : CheckKeyRequest.t)
| Generate (request : GenerateNFTRequest.t) (utcnow : datetime)
| GetStatus (id walletAddress : string)
| GetCollection (walletAddress : string).

Definition handle (c : call) : DB dict :=
  match c with
  | CheckName r => check_name r
  | CheckKey r => check_key r
  | Generate r t => generate_nft r t
  | GetStatus i w => get_nft_status i w
  | GetCollection w => get_nft_collection w
  end.

(** States the table can be in: empty at start, then one call after another. *)
Inductive reachable : database -> Prop :=
| reachable_empty : reachable []
| reachable_step c db : reachable db -> reachable (fst (handle c db)).

(** [n] consecutive status polls; the responses, oldest first. *)
Fixpoint poll (n : nat) (id walletAddress : string) (db : database)
  : list (exn + dict) :=
  match n with
  | O => []
  | S n' =>
      let '(db', r) := get_nft_status id walletAddress db in
      r :: poll n' id walletAddress db'
  end.

Definition field (k : string) (r : exn + dict) : option json :=
  match r with inr d => get k d | inl _ => None end.

(** ** Vocabulary of the statements *)

(** The id the f-string of [generate_nft] builds from a row count. *)
Definition nft_id (n : nat) : string := ("nft_" ++ str_of_nat n)%string.

(** The primary-key column. *)
Definition ids (db : database) : list string := map NFT.id db.

(** The table after [commit obj]. *)
Definition committed (obj : NFT.t) (db : database) : database :=
  map (fun row => if has_id (NFT.id obj) row then obj else row) db.

(** The row [generate_nft] leaves in the table when the table held [n] rows. *)
Definition generated (request : GenerateNFTRequest.t) (utcnow : datetime) (n : nat)
  : NFT.t :=
  NFT.mk (nft_id (n + 1))
         (GenerateNFTRequest.name request)
         (GenerateNFTRequest.description request)
         (GenerateNFTRequest.dogKey request)
         (GenerateNFTRequest.walletAddress request)
         (GenerateNFTRequest.attributes request)
         "generating" 50 None None None utcnow None.

(** The dictionary [generate_nft] returns then. *)
Definition generated_dict (request : GenerateNFTRequest.t) (utcnow : datetime) (n : nat)
  : dict :=
  [("id", JStr (nft_id (n + 1)));
   ("status", JStr "generating");
   ("name", JStr (GenerateNFTRequest.name request));
   ("description", json_of_str (GenerateNFTRequest.description request));
   ("dogKey", JStr (GenerateNFTRequest.dogKey request));
   ("walletAddress", JStr (GenerateNFTRequest.walletAddress request));
   ("contractAddress", JNull);
   ("tokenId", JNull);
   ("attributes", json_of_dicts (GenerateNFTRequest.attributes request));
   ("createdAt", JStr (isoformat utcnow));
   ("mintedAt", JNull);
   ("message", JStr "NFT generation started")].

(** The filter of [get_nft_status]. *)
Definition matches (id walletAddress : string) (row : NFT.t) : bool :=
  has_id id row && has_walletAddress walletAddress row.

(** The columns no handler assigns after the row is inserted. *)
Definition same_frame (a b : NFT.t) : Prop :=
  NFT.id a = NFT.id b /\ NFT.name a = NFT.name b /\
  NFT.description a = NFT.description b /\ NFT.dogKey a = NFT.dogKey b /\
  NFT.walletAddress a = NFT.walletAddress b /\
  NFT.attributes a = NFT.attributes b /\
  NFT.contractAddress a = NFT.contractAddress b /\
  NFT.tokenId a = NFT.tokenId b /\
  NFT.createdAt a = NFT.createdAt b /\ NFT.mintedAt a = NFT.mintedAt b.

(** A row that is ["ready"] is complete and carries the URL of its id. *)
Definition ready_ok (row : NFT.t) : Prop :=
  NFT.status row = "ready" ->
  NFT.imageUrl row = Some (image_url (NFT.id row)) /\ NFT.progress row = 100%Z.

(** What every reachable table satisfies: ids are [nft_1] .. [nft_n] in
    order, keys are unique, ready rows are complete. *)
Record invariant (db : database) : Prop := {
  inv_ids : ids db = map nft_id (seq 1 (List.length db));
  inv_keys : NoDup (map NFT.dogKey db);
  inv_ready : Forall ready_ok db
}.

(** The name check a client would make before [generate_nft]. *)
Definition name_request (request : GenerateNFTRequest.t) : CheckNameRequest.t :=
  CheckNameRequest.mk (GenerateNFTRequest.name request)
                      (GenerateNFTRequest.walletAddress request).

(** Concrete requests and tables. *)
Definition t0 : datetime := mkDatetime 2024 3 15 10 30 0 0.

Definition req_A : GenerateNFTRequest.t :=
  GenerateNFTRequest.mk "CryptoDog #1" (Some "A unique crypto dog NFT") "KEY_1" "0xabc"
    (Some [[("type", JStr "Rarity"); ("value", JStr "Legendary")]]).

(** Same name as [req_A], another key and owner. *)
Definition req_B : GenerateNFTRequest.t :=
  GenerateNFTRequest.mk "CryptoDog #1" None "KEY_2" "0xdef" None.

(** After [req_A] on the empty table. *)
Definition db_A : database := Eval vm_compute in fst (generate_nft req_A t0 []).

(** After [req_A] and two polls by its owner. *)
Definition db_ready : database :=
  Eval vm_compute in
    fst (get_nft_status "nft_1" "0xabc" (fst (get_nft_status "nft_1" "0xabc" db_A))).

Definition resp_A : dict := Eval vm_compute in generated_dict req_A t0 0.

Definition row_ready : NFT.t :=
  Eval vm_compute in NFT.set_imageUrl (Some (image_url "nft_1"))
    (NFT.set_status "ready" (NFT.set_progress 100 (generated req_A t0 0))).

(** The calls of a client, one after another, each on the table the one
    before it left. *)
Fixpoint run (cs : list call) (db : database) : database :=
  match cs with
  | [] => db
  | c :: cs' => run cs' (fst (handle c db))
  end.

(** Where a row stands: written at 50 by [generate_nft], polled to 75, then
    ready at 100 with the URL of its id. *)
Definition lifecycle (row : NFT.t) : Prop :=
  (NFT.status row = "generating" /\ NFT.imageUrl row = None /\
   (NFT.progress row = 50%Z \/ NFT.progress row = 75%Z)) \/
  (NFT.status row = "ready" /\ NFT.imageUrl row = Some (image_url (NFT.id row)) /\
   NFT.progress row = 100%Z).

(** A row and what later calls made of it. *)
Definition evolves (a b : NFT.t) : Prop :=
  same_frame a b /\ (NFT.progress a <= NFT.progress b)%Z /\
  (NFT.status a = "ready" -> b = a).

(** The wallet address whose rows a call may insert or assign, if any. *)
Definition writes_for (c : call) : option string :=
  match c with
  | Generate request _ => Some (GenerateNFTRequest.walletAddress request)
  | GetStatus _ walletAddress => Some walletAddress
  | CheckName _ | CheckKey _ | GetCollection _ => None
  end.

Open Scope list_scope.

(** ** Facts about the Python values *)

Lemma str_of_nat_inj (a b : nat) : str_of_nat a = str_of_nat b -> a = b.
Proof.
  unfold str_of_nat. intros H.
  apply Unsigned.to_uint_inj.
  assert (E : Some (Nat.to_uint a) = Some (Nat.to_uint b)).
  { rewrite <- (NilEmpty.usu (Nat.to_uint a)), <- (NilEmpty.usu (Nat.to_uint b)).
    now rewrite H. }
  now injection E.
Qed.

Lemma nft_id_inj (a b : nat) : nft_id a = nft_id b -> a = b.
Proof.
  unfold nft_id. cbn [append]. intros H.
  apply str_of_nat_inj. congruence.
Qed.

(** ** Facts about queries and commits *)

Section Queries.
Variable p : NFT.t -> bool.

Lemma find_existsb (db : database) :
  existsb p db = match find p db with Some _ => true | None => false end.
Proof.
  induction db as [|row db IH]; cbn; [reflexivity|].
  destruct (p row); cbn; auto.
Qed.

Lemma find_none_iff (db : database) :
  find p db = None <-> forall row, In row db -> p row = false.
Proof.
  split; [apply find_none|].
  induction db as [|row db IH]; cbn; intros H; [reflexivity|].
  rewrite (H row) by auto. apply IH. intros; apply H; auto.
Qed.

Lemma find_last (db : database) (row : NFT.t) :
  (forall r, In r db -> p r = false) -> p row = true ->
  find p (db ++ [row]) = Some row.
Proof.
  induction db as [|r db IH]; cbn; intros Hn Hp.
  - now rewrite Hp.
  - rewrite (Hn r) by auto. apply IH; auto.
Qed.
End Queries.

Lemma has_id_true (i : string) (row : NFT.t) : has_id i row = true <-> NFT.id row = i.
Proof. unfold has_id. apply String.eqb_eq. Qed.

Lemma has_id_fresh (i : string) (db : database) :
  ~ In i (ids db) <-> forall row, In row db -> has_id i row = false.
Proof.
  unfold ids. split.
  - intros Hn row Hin. destruct (has_id i row) eqn:E; [|reflexivity].
    apply has_id_true in E. exfalso. apply Hn. rewrite <- E. now apply in_map.
  - intros H Hin. apply in_map_iff in Hin as (row & E & Hin).
    apply has_id_true in E. now rewrite (H row Hin) in E.
Qed.

Lemma existsb_has_id (i : string) (db : database) :
  existsb (has_id i) db = false <-> ~ In i (ids db).
Proof.
  rewrite has_id_fresh. split.
  - intros H row Hin. destruct (has_id i row) eqn:E; [|reflexivity].
    enough (existsb (has_id i) db = true) by congruence.
    apply existsb_exists. eauto.
  - intros H. destruct (existsb (has_id i) db) eqn:E; [|reflexivity].
    apply existsb_exists in E as (row & Hin & E). now rewrite (H row Hin) in E.
Qed.

Lemma committed_ids (obj : NFT.t) (db : database) : ids (committed obj db) = ids db.
Proof.
  unfold ids, committed. rewrite map_map. apply map_ext. intros row.
  destruct (has_id (NFT.id obj) row) eqn:E; [|reflexivity].
  now apply has_id_true in E.
Qed.

Lemma committed_absent (obj : NFT.t) (db : database) :
  ~ In (NFT.id obj) (ids db) -> committed obj db = db.
Proof.
  intros H. unfold committed. rewrite <- (map_id db) at 2.
  apply map_ext_in. intros row Hin.
  now rewrite (proj1 (has_id_fresh _ _) H row Hin).
Qed.

Lemma committed_split (obj row : NFT.t) (l1 l2 : database) :
  NFT.id obj = NFT.id row -> NoDup (ids (l1 ++ row :: l2)) ->
  committed obj (l1 ++ row :: l2) = (l1 ++ obj :: l2).
Proof.
  intros E Hnd. unfold ids in Hnd. rewrite map_app in Hnd. cbn [map] in Hnd.
  pose proof (NoDup_remove_2 _ _ _ Hnd) as Hfresh.
  rewrite in_app_iff in Hfresh.
  unfold committed. rewrite map_app. cbn [map].
  fold (committed obj l1) (committed obj l2).
  rewrite !committed_absent by (rewrite E; unfold ids; tauto).
  now rewrite (proj2 (has_id_true _ _) (eq_sym E)).
Qed.

(** Two rows of a table with a sound primary key that share an id are one row. *)
Lemma primary_key_row (db : database) (a b : NFT.t) :
  NoDup (ids db) -> In a db -> In b db -> NFT.id a = NFT.id b -> a = b.
Proof.
  unfold ids. induction db as [|row db IH]; cbn; [tauto|].
  intros Hnd Ha Hb E. apply NoDup_cons_iff in Hnd as [Hfresh Hnd].
  destruct Ha as [<-|Ha], Hb as [<-|Hb]; auto.
  - exfalso. apply Hfresh. rewrite E. now apply in_map.
  - exfalso. apply Hfresh. rewrite <- E. now apply in_map.
Qed.

(** ** The handlers, one equation each *)

Lemma check_name_eq (request : CheckNameRequest.t) (db : database) :
  check_name request db =
  (db, inr (if existsb (has_name (CheckNameRequest.name request)) db
            then [("available", JBool false); ("message", JStr "NFT name is already taken")]
            else [("available", JBool true); ("message", JStr "NFT name is available")])).
Proof.
  rewrite find_existsb. unfold check_name, bind, query_first, ret.
  now destruct (find _ db).
Qed.

Lemma check_key_eq (request : CheckKeyRequest.t) (db : database) :
  check_key request db =
  (db, inr (if existsb (has_dogKey (CheckKeyRequest.dogKey request)) db
            then [("valid", JBool true); ("unique", JBool false);
                  ("message", JStr "Dog key is valid but not unique")]
            else [("valid", JBool true); ("unique", JBool true);
                  ("message", JStr "Dog key is valid and unique")])).
Proof.
  rewrite find_existsb. unfold check_key, bind, query_first, ret.
  now destruct (find _ db).
Qed.

Lemma generate_nft_eq (request : GenerateNFTRequest.t) (utcnow : datetime) (db : database) :
  generate_nft request utcnow db =
  if existsb (has_dogKey (GenerateNFTRequest.dogKey request)) db
  then (db, inl DUPLICATE_KEY)
  else if existsb (has_id (nft_id (List.length db + 1))) db
       then (db, inl IntegrityError)
       else ((db ++ [generated request utcnow (List.length db)]),
             inr (generated_dict request utcnow (List.length db))).
Proof.
  rewrite (find_existsb (has_dogKey _)).
  unfold generate_nft, bind at 1, query_first.
  destruct (find _ db) eqn:Ek; [reflexivity|].
  unfold bind at 1, query_all. rewrite filter_true.
  unfold bind at 1, add_commit. cbn [NFT.id NFT.dogKey].
  fold (nft_id (List.length db + 1)).
  destruct (existsb (has_id _) db) eqn:Ei; [reflexivity|].
  rewrite (find_existsb (has_dogKey _)), Ek. cbn [orb].
  unfold bind, commit, ret.
  match goal with |- (map ?f ?l, _) = _ => change (map f l) with
    (committed (generated request utcnow (List.length db)) l) end.
  unfold committed. rewrite map_app.
  fold (committed (generated request utcnow (List.length db)) db).
  rewrite committed_absent by (now apply existsb_has_id).
  cbn [map]. unfold has_id at 1. cbn [NFT.id]. rewrite String.eqb_refl.
  reflexivity.
Qed.

Lemma get_nft_status_eq (id walletAddress : string) (db : database) :
  get_nft_status id walletAddress db =
  match find (matches id walletAddress) db with
  | None => (db, inl NFT_NOT_FOUND)
  | Some nft =>
      if String.eqb (NFT.status nft) "generating"
      then (committed (advance id nft) db, inr (status_dict (advance id nft)))
      else (db, inr (status_dict nft))
  end.
Proof.
  unfold get_nft_status, bind at 1, query_first. fold (matches id walletAddress).
  destruct (find _ db) as [nft|]; [|reflexivity].
  unfold bind. destruct (String.eqb _ _); reflexivity.
Qed.

Lemma get_nft_collection_eq (walletAddress : string) (db : database) :
  get_nft_collection walletAddress db =
  match filter (has_walletAddress walletAddress) db with
  | [] => (db, inl NO_NFTS)
  | nfts => (db, inr [("nfts", JList (map JDict (map collection_item nfts)))])
  end.
Proof.
  unfold get_nft_collection, bind, query_all.
  now destruct (filter _ db).
Qed.

(** ** What [advance] assigns *)

Lemma advance_frame (id : string) (nft : NFT.t) : same_frame nft (advance id nft).
Proof.
  unfold same_frame, advance. cbn.
  destruct (Z.eqb _ 100); cbn; repeat split; reflexivity.
Qed.

Lemma advance_id (id : string) (nft : NFT.t) : NFT.id (advance id nft) = NFT.id nft.
Proof. symmetry. apply advance_frame. Qed.

Lemma advance_ready_ok (id : string) (nft : NFT.t) :
  NFT.id nft = id -> NFT.status nft = "generating" -> ready_ok (advance id nft).
Proof.
  intros Ei Es. unfold ready_ok, advance. cbn.
  destruct (Z.eqb_spec (Z.min (NFT.progress nft + 25) 100) 100) as [E|E]; cbn.
  - intros _. now rewrite Ei, E.
  - rewrite Es. discriminate.
Qed.

Lemma matches_true (id walletAddress : string) (row : NFT.t) :
  matches id walletAddress row = true <->
  NFT.id row = id /\ NFT.walletAddress row = walletAddress.
Proof.
  unfold matches, has_id, has_walletAddress.
  now rewrite andb_true_iff, !String.eqb_eq.
Qed.

(** With a sound primary key, the poll that advances rewrites one row. *)
Lemma advance_split (id walletAddress : string) (db : database) (nft : NFT.t) :
  NoDup (ids db) -> find (matches id walletAddress) db = Some nft ->
  exists l1 l2, db = l1 ++ nft :: l2 /\
                committed (advance id nft) db = l1 ++ advance id nft :: l2.
Proof.
  intros Hnd Hf. apply find_some in Hf as [Hin _].
  destruct (in_split _ _ Hin) as (l1 & l2 & ->).
  exists l1, l2. split; [reflexivity|].
  apply committed_split; [apply advance_id | assumption].
Qed.

(** ** Invariants of the reachable tables *)

Lemma existsb_eqb_false (f : NFT.t -> string) (k : string) (db : database) :
  existsb (fun row => String.eqb (f row) k) db = false <-> ~ In k (map f db).
Proof.
  induction db as [|row db IH]; cbn; [tauto|].
  rewrite orb_false_iff, IH, String.eqb_neq. tauto.
Qed.

Lemma invariant_ids_NoDup (db : database) : invariant db -> NoDup (ids db).
Proof.
  intros [E _ _]. rewrite E.
  apply Injective_map_NoDup; [|apply seq_NoDup].
  intros a b. apply nft_id_inj.
Qed.

Lemma invariant_next_id (db : database) :
  invariant db -> existsb (has_id (nft_id (List.length db + 1))) db = false.
Proof.
  intros [E _ _]. apply existsb_has_id. rewrite E. intros Hin.
  apply in_map_iff in Hin as (k & Ek & Hin).
  apply nft_id_inj in Ek. apply in_seq in Hin. lia.
Qed.

Lemma invariant_generate (request : GenerateNFTRequest.t) (utcnow : datetime) (db : database) :
  invariant db -> invariant (fst (generate_nft request utcnow db)).
Proof.
  intros Hinv. rewrite generate_nft_eq.
  destruct (existsb (has_dogKey _) db) eqn:Ek; [exact Hinv|].
  rewrite (invariant_next_id db Hinv). cbn [fst].
  destruct Hinv as [Hi Hk Hr]. split.
  - unfold ids in *. rewrite map_app, length_app, Hi. cbn [map List.length NFT.id generated].
    rewrite Nat.add_1_r, seq_S, map_app. reflexivity.
  - rewrite map_app. cbn [map NFT.dogKey generated].
    apply NoDup_app; [assumption | repeat constructor; cbn; tauto |].
    intros k Hin [<-|[]]. revert Hin. now apply existsb_eqb_false.
  - apply Forall_app. split; [assumption|].
    constructor; [|constructor]. unfold ready_ok. cbn. discriminate.
Qed.

Lemma invariant_status (id walletAddress : string) (db : database) :
  invariant db -> invariant (fst (get_nft_status id walletAddress db)).
Proof.
  intros Hinv. rewrite get_nft_status_eq.
  destruct (find _ db) as [nft|] eqn:Hf; [|exact Hinv].
  destruct (String.eqb_spec (NFT.status nft) "generating") as [Es|_]; [|exact Hinv].
  cbn [fst].
  destruct (advance_split _ _ _ _ (invariant_ids_NoDup _ Hinv) Hf) as (l1 & l2 & E & ->).
  apply find_some in Hf as [_ Hm]. apply matches_true in Hm as [Ei _].
  destruct Hinv as [Hi Hk Hr]. subst db.
  pose proof (advance_frame id nft) as (Fi & _ & _ & Fk & _).
  split.
  - unfold ids in *. rewrite map_app, length_app in *. cbn [map List.length] in *.
    now rewrite <- Fi.
  - rewrite map_app in *. cbn [map] in *. now rewrite <- Fk.
  - apply Forall_app in Hr as [H1 H2]. inversion H2; subst.
    apply Forall_app. split; [assumption|].
    constructor; [|assumption]. now apply advance_ready_ok.
Qed.

Lemma invariant_step (c : call) (db : database) :
  invariant db -> invariant (fst (handle c db)).
Proof.
  destruct c as [r|r|r t|i w|w]; cbn [handle]; intros Hinv.
  - now rewrite check_name_eq.
  - now rewrite check_key_eq.
  - now apply invariant_generate.
  - now apply invariant_status.
  - rewrite get_nft_collection_eq. now destruct (filter _ db).
Qed.

Lemma reachable_invariant (db : database) : reachable db -> invariant db.
Proof.
  induction 1 as [|c db _ IH].
  - split; cbn; constructor.
  - now apply invariant_step.
Qed.

(** In a table with a sound primary key a row is found by its own id and
    wallet address. *)
Lemma find_own_row (db : database) (nft : NFT.t) :
  NoDup (ids db) -> In nft db ->
  find (matches (NFT.id nft) (NFT.walletAddress nft)) db = Some nft.
Proof.
  intros Hnd Hin.
  destruct (find _ db) as [row|] eqn:Hf.
  - apply find_some in Hf as [Hin' Hm]. apply matches_true in Hm as [Ei _].
    f_equal. now apply (primary_key_row db).
  - exfalso. pose proof (find_none _ _ Hf nft Hin) as Hm.
    assert (matches (NFT.id nft) (NFT.walletAddress nft) nft = true)
      by now apply matches_true.
    congruence.
Qed.

(** A poll for the newest row of the table, whose id no older row has. *)
Lemma status_last (db : database) (row : NFT.t) (id walletAddress : string) :
  ~ In id (ids db) -> NFT.id row = id -> NFT.walletAddress row = walletAddress ->
  get_nft_status id walletAddress (db ++ [row]) =
  if String.eqb (NFT.status row) "generating"
  then (db ++ [advance id row], inr (status_dict (advance id row)))
  else (db ++ [row], inr (status_dict row)).
Proof.
  intros Hfresh Ei Ew. rewrite get_nft_status_eq.
  rewrite (find_last (matches id walletAddress) db row).
  - destruct (String.eqb _ _); [|reflexivity].
    unfold committed. rewrite map_app.
    fold (committed (advance id row) db).
    rewrite committed_absent by now rewrite advance_id, Ei.
    cbn [map]. rewrite advance_id.
    now rewrite (proj2 (has_id_true (NFT.id row) row) eq_refl).
  - intros r Hin. unfold matches.
    now rewrite (proj1 (has_id_fresh id db) Hfresh r Hin).
  - now apply matches_true.
Qed.

Ltac poll_last db i w Hfresh :=
  match goal with
  | |- context [get_nft_status i w (db ++ [?row])] =>
      rewrite (status_last db row i w Hfresh eq_refl eq_refl)
  end.

Lemma reachable_db_A : reachable db_A.
Proof. exact (reachable_step (Generate req_A t0) [] reachable_empty). Qed.

Lemma reachable_db_ready : reachable db_ready.
Proof.
  exact (reachable_step (GetStatus "nft_1" "0xabc") _
           (reachable_step (GetStatus "nft_1" "0xabc") _ reachable_db_A)).
Qed.

(** ** Polling a fresh record *)

(** C1, as stated, fails: the record [generate_nft] leaves behind already
    stands at progress 50, so four polls do not answer 25, 50, 75, 100. *)
Lemma fresh_record_polls_counterexample :
  exists db1 resp,
    generate_nft req_A t0 [] = (db1, inr resp) /\
    get "id" resp = Some (JStr "nft_1") /\
    map (field "progress") (poll 4 "nft_1" (GenerateNFTRequest.walletAddress req_A) db1)
    <> [Some (JInt 25); Some (JInt 50); Some (JInt 75); Some (JInt 100)].
Proof.
  eexists. eexists. split; [vm_compute; reflexivity|].
  split; [reflexivity|]. vm_compute. discriminate.
Qed.

(** C1 (amended): for every record freshly produced by [generate_nft], four
    consecutive polls by its owner answer progress 75, 100, 100, 100 and
    status generating, ready, ready, ready; [imageUrl] is null in the first
    answer only and is the URL of the id from the second poll on. *)
Theorem fresh_record_polls
    (request : GenerateNFTRequest.t) (utcnow : datetime)
    (db db1 : database) (resp : dict) :
  generate_nft request utcnow db = (db1, inr resp) ->
  exists id,
    get "id" resp = Some (JStr id) /\
    let polls := poll 4 id (GenerateNFTRequest.walletAddress request) db1 in
    map (field "progress") polls =
      [Some (JInt 75); Some (JInt 100); Some (JInt 100); Some (JInt 100)] /\
    map (field "status") polls =
      [Some (JStr "generating"); Some (JStr "ready");
       Some (JStr "ready"); Some (JStr "ready")] /\
    map (field "imageUrl") polls =
      [Some JNull; Some (JStr (image_url id));
       Some (JStr (image_url id)); Some (JStr (image_url id))].
Proof.
  rewrite generate_nft_eq.
  destruct (existsb (has_dogKey _) db); [discriminate|].
  destruct (existsb (has_id _) db) eqn:Ei; [discriminate|].
  apply existsb_has_id in Ei.
  intros H. injection H as <- <-.
  set (i := nft_id (List.length db + 1)) in *.
  exists i. split; [reflexivity|].
  set (w := GenerateNFTRequest.walletAddress request).
  set (r0 := generated request utcnow (List.length db)).
  set (r1 := advance i r0). set (r2 := advance i r1).
  assert (S0 : String.eqb (NFT.status r0) "generating" = true) by reflexivity.
  assert (S1 : String.eqb (NFT.status r1) "generating" = true) by reflexivity.
  assert (S2 : String.eqb (NFT.status r2) "generating" = false) by reflexivity.
  cbn [poll].
  poll_last db i w Ei. rewrite S0. fold r1.
  poll_last db i w Ei. rewrite S1. fold r2.
  poll_last db i w Ei. rewrite S2.
  poll_last db i w Ei. rewrite S2.
  repeat split; reflexivity.
Qed.

Lemma fresh_record_polls_witness :
  generate_nft req_A t0 [] = (db_A, inr resp_A) /\
  exists id,
    get "id" resp_A = Some (JStr id) /\
    let polls := poll 4 id "0xabc" db_A in
    map (field "progress") polls =
      [Some (JInt 75); Some (JInt 100); Some (JInt 100); Some (JInt 100)] /\
    map (field "status") polls =
      [Some (JStr "generating"); Some (JStr "ready");
       Some (JStr "ready"); Some (JStr "ready")] /\
    map (field "imageUrl") polls =
      [Some JNull; Some (JStr (image_url id));
       Some (JStr (image_url id)); Some (JStr (image_url id))].
Proof.
  split; [reflexivity|].
  apply (fresh_record_polls req_A t0 [] db_A resp_A). reflexivity.
Defined.

(** ** Creating a record *)

(** C2: when some row already carries the requested [dogKey], [generate_nft]
    raises the 400 [DUPLICATE_KEY] exception and the table is the one it was
    called on, with the same number of rows. *)
Theorem generate_duplicate_key
    (request : GenerateNFTRequest.t) (utcnow : datetime) (db : database) :
  (exists row, In row db /\ NFT.dogKey row = GenerateNFTRequest.dogKey request) ->
  generate_nft request utcnow db =
    (db, inl (HTTPException 400 [("error", JStr "Dog key must be unique");
                                 ("code", JStr "DUPLICATE_KEY")])) /\
  List.length (fst (generate_nft request utcnow db)) = List.length db.
Proof.
  intros (row & Hin & Ek). rewrite generate_nft_eq.
  assert (E : existsb (has_dogKey (GenerateNFTRequest.dogKey request)) db = true).
  { apply existsb_exists. exists row. split; [assumption|].
    unfold has_dogKey. now apply String.eqb_eq. }
  rewrite E. split; reflexivity.
Qed.

Lemma generate_duplicate_key_witness :
  generate_nft req_A t0 db_A =
    (db_A, inl (HTTPException 400 [("error", JStr "Dog key must be unique");
                                   ("code", JStr "DUPLICATE_KEY")])) /\
  List.length (fst (generate_nft req_A t0 db_A)) = List.length db_A.
Proof.
  apply (generate_duplicate_key req_A t0 db_A).
  exists (generated req_A t0 0). split; [left; reflexivity | reflexivity].
Defined.

(** C8, as stated, fails: the dictionary [generate_nft] returns has no
    [progress] entry at all. *)
Lemma generate_response_counterexample :
  exists db1 resp,
    generate_nft req_A t0 [] = (db1, inr resp) /\
    get "status" resp = Some (JStr "generating") /\
    get "progress" resp <> Some (JInt 50).
Proof.
  exists db_A, resp_A. split; [reflexivity|].
  split; [reflexivity|]. vm_compute. discriminate.
Qed.

(** C8 (amended): every successful [generate_nft] answers with status
    ["generating"] and without a [progress] entry; the progress 50 of the
    two writes is in the row appended to the table, whose id the answer
    carries. *)
Theorem generate_response
    (request : GenerateNFTRequest.t) (utcnow : datetime)
    (db db1 : database) (resp : dict) :
  generate_nft request utcnow db = (db1, inr resp) ->
  get "status" resp = Some (JStr "generating") /\
  get "progress" resp = None /\
  exists row,
    db1 = db ++ [row] /\
    get "id" resp = Some (JStr (NFT.id row)) /\
    NFT.status row = "generating" /\ NFT.progress row = 50%Z.
Proof.
  rewrite generate_nft_eq.
  destruct (existsb (has_dogKey _) db); [discriminate|].
  destruct (existsb (has_id _) db); [discriminate|].
  intros H. injection H as <- <-.
  split; [reflexivity|]. split; [reflexivity|].
  exists (generated request utcnow (List.length db)). repeat split.
Qed.

Lemma generate_response_witness :
  generate_nft req_A t0 [] = (db_A, inr resp_A) /\
  get "status" resp_A = Some (JStr "generating") /\
  get "progress" resp_A = None /\
  exists row,
    db_A = [] ++ [row] /\
    get "id" resp_A = Some (JStr (NFT.id row)) /\
    NFT.status row = "generating" /\ NFT.progress row = 50%Z.
Proof.
  split; [reflexivity|].
  apply (generate_response req_A t0 [] db_A resp_A). reflexivity.
Defined.

(** ** Ready records *)

(** C3: in every reachable table a row that is ["ready"] has progress 100
    and a non-null [imageUrl], the URL built from its own id; the property
    holds again after any further call, and a poll that answers ["ready"]
    answers with progress 100 and that URL. *)
Theorem ready_invariant (db : database) :
  reachable db ->
  (forall row, In row db -> NFT.status row = "ready" ->
     NFT.imageUrl row = Some (image_url (NFT.id row)) /\
     NFT.imageUrl row <> None /\ NFT.progress row = 100%Z) /\
  (forall c, Forall ready_ok (fst (handle c db))) /\
  (forall id walletAddress db' resp,
     get_nft_status id walletAddress db = (db', inr resp) ->
     get "status" resp = Some (JStr "ready") ->
     get "progress" resp = Some (JInt 100) /\
     get "imageUrl" resp = Some (JStr (image_url id))).
Proof.
  intros Hr. pose proof (reachable_invariant db Hr) as Hinv.
  assert (Hall : forall row, In row db -> ready_ok row).
  { apply Forall_forall. apply Hinv. }
  split; [|split].
  - intros row Hin Hs. destruct (Hall row Hin Hs) as [Hu Hp].
    repeat split; [assumption | congruence | assumption].
  - intros c. apply inv_ready. now apply invariant_step.
  - intros id w db' resp. rewrite get_nft_status_eq.
    destruct (find _ db) as [nft|] eqn:Hf; [|discriminate].
    apply find_some in Hf as [Hin Hm]. apply matches_true in Hm as [Ei _].
    assert (Hd : forall row, NFT.id row = id -> ready_ok row ->
                 get "status" (status_dict row) = Some (JStr "ready") ->
                 get "progress" (status_dict row) = Some (JInt 100) /\
                 get "imageUrl" (status_dict row) = Some (JStr (image_url id))).
    { intros row Hi Hok Hs. cbn in Hs. injection Hs as Hs.
      destruct (Hok Hs) as [Hu Hp]. cbn. now rewrite Hu, Hp, Hi. }
    destruct (String.eqb_spec (NFT.status nft) "generating") as [Es|_];
      intros H; injection H as <- <-; apply Hd; auto.
    + now rewrite advance_id.
    + now apply advance_ready_ok.
Qed.

Lemma ready_invariant_witness :
  (forall row, In row db_ready -> NFT.status row = "ready" ->
     NFT.imageUrl row = Some (image_url (NFT.id row)) /\
     NFT.imageUrl row <> None /\ NFT.progress row = 100%Z) /\
  (forall c, Forall ready_ok (fst (handle c db_ready))) /\
  (forall id walletAddress db' resp,
     get_nft_status id walletAddress db_ready = (db', inr resp) ->
     get "status" resp = Some (JStr "ready") ->
     get "progress" resp = Some (JInt 100) /\
     get "imageUrl" resp = Some (JStr (image_url id))).
Proof.
  apply (ready_invariant db_ready).
  exact (reachable_step (GetStatus "nft_1" "0xabc") _
           (reachable_step (GetStatus "nft_1" "0xabc") _
              (reachable_step (Generate req_A t0) [] reachable_empty))).
Defined.

(** C4: polling a ["ready"] row with its own id and wallet address leaves
    the table as it was and answers progress 100, status ready and the
    stored [imageUrl]; polling again answers the same. *)
Theorem status_ready_idempotent (db : database) (nft : NFT.t) :
  reachable db -> In nft db -> NFT.status nft = "ready" ->
  let once := get_nft_status (NFT.id nft) (NFT.walletAddress nft) db in
  fst once = db /\
  (exists resp, snd once = inr resp /\
     get "progress" resp = Some (JInt 100) /\
     get "status" resp = Some (JStr "ready") /\
     get "imageUrl" resp = Some (json_of_str (NFT.imageUrl nft)) /\
     NFT.imageUrl nft <> None) /\
  get_nft_status (NFT.id nft) (NFT.walletAddress nft) (fst once) = once.
Proof.
  intros Hr Hin Hs once.
  pose proof (reachable_invariant db Hr) as Hinv.
  assert (Hok : ready_ok nft).
  { pose proof (inv_ready db Hinv) as Hall.
    rewrite Forall_forall in Hall. now apply Hall. }
  destruct (Hok Hs) as [Hu Hp].
  assert (E : once = (db, inr (status_dict nft))).
  { subst once. rewrite get_nft_status_eq.
    rewrite (find_own_row db nft (invariant_ids_NoDup db Hinv) Hin).
    now rewrite Hs. }
  rewrite E. cbn [fst snd]. split; [reflexivity|]. split; [|exact E].
  exists (status_dict nft). cbn. rewrite Hp, Hs.
  repeat split. congruence.
Qed.

Lemma status_ready_idempotent_witness :
  let once := get_nft_status "nft_1" "0xabc" db_ready in
  fst once = db_ready /\
  (exists resp, snd once = inr resp /\
     get "progress" resp = Some (JInt 100) /\
     get "status" resp = Some (JStr "ready") /\
     get "imageUrl" resp = Some (json_of_str (NFT.imageUrl row_ready)) /\
     NFT.imageUrl row_ready <> None) /\
  get_nft_status "nft_1" "0xabc" (fst once) = once.
Proof.
  apply (status_ready_idempotent db_ready row_ready).
  - exact reachable_db_ready.
  - left. reflexivity.
  - reflexivity.
Defined.

(** ** Names *)

(** C5, as stated, fails: [generate_nft] looks at [dogKey] only, and two
    requests with one name and different keys leave two rows of that name. *)
Lemma name_unique_counterexample :
  let db := fst (handle (Generate req_B t0) (fst (handle (Generate req_A t0) []))) in
  reachable db /\ ~ NoDup (map NFT.name db).
Proof.
  split.
  - apply reachable_step, reachable_step, reachable_empty.
  - vm_compute. intros H. inversion H as [|x l Hn _]. apply Hn. left. reflexivity.
Qed.

(** C5 (amended): in every reachable table [dogKey] is unique across rows;
    uniqueness of [name] is kept by every call except a [generate_nft] whose
    name is already taken, that is, it is kept whenever [check_name] answers
    [available = true] for the name of the record being created. *)
Theorem name_unique_when_available (c : call) (db : database) :
  reachable db ->
  NoDup (map NFT.dogKey db) /\
  (NoDup (map NFT.name db) ->
   (forall request utcnow, c = Generate request utcnow ->
      field "available" (snd (check_name (name_request request) db)) = Some (JBool true)) ->
   NoDup (map NFT.name (fst (handle c db)))).
Proof.
  intros Hr. pose proof (reachable_invariant db Hr) as Hinv.
  split; [apply Hinv|]. intros Hn Hguard.
  destruct c as [r|r|r t|i w|w]; cbn [handle].
  - now rewrite check_name_eq.
  - now rewrite check_key_eq.
  - specialize (Hguard r t eq_refl). rewrite check_name_eq in Hguard.
    cbn [snd field name_request CheckNameRequest.name] in Hguard.
    destruct (existsb (has_name _) db) eqn:En; [discriminate|].
    rewrite generate_nft_eq.
    destruct (existsb (has_dogKey _) db); [assumption|].
    destruct (existsb (has_id _) db); [assumption|].
    cbn [fst]. rewrite map_app. cbn [map NFT.name generated].
    apply NoDup_app; [assumption | repeat constructor; cbn; tauto |].
    intros n Hin [<-|[]]. revert Hin. now apply existsb_eqb_false.
  - rewrite get_nft_status_eq.
    destruct (find _ db) as [nft|] eqn:Hf; [|assumption].
    destruct (String.eqb _ _); [|assumption]. cbn [fst].
    destruct (advance_split _ _ _ _ (invariant_ids_NoDup _ Hinv) Hf)
      as (l1 & l2 & -> & ->).
    pose proof (advance_frame i nft) as (_ & Fn & _).
    rewrite map_app in *. cbn [map] in *. now rewrite <- Fn.
  - rewrite get_nft_collection_eq. now destruct (filter _ db).
Qed.

Lemma name_unique_when_available_witness :
  NoDup (map NFT.dogKey (fst (handle (Generate req_B t0) db_A))) /\
  NoDup (map NFT.dogKey db_A) /\
  NoDup (map NFT.name
           (fst (handle (Generate (GenerateNFTRequest.mk "CryptoDog #2" None "KEY_2" "0xdef" None) t0)
                        db_A))).
Proof.
  split.
  - apply (name_unique_when_available (CheckKey (CheckKeyRequest.mk "KEY_1" "0xabc"))
             (fst (handle (Generate req_B t0) db_A))).
    exact (reachable_step (Generate req_B t0) db_A reachable_db_A).
  - destruct (name_unique_when_available
                (Generate (GenerateNFTRequest.mk "CryptoDog #2" None "KEY_2" "0xdef" None) t0)
                db_A reachable_db_A) as [Hkeys Hnames].
    split; [exact Hkeys|]. apply Hnames.
    + repeat constructor; cbn; tauto.
    + intros request utcnow E. injection E as <- _. reflexivity.
Defined.

(** ** Polling with the wrong owner *)

(** C6: in a table whose primary key is sound, polling the id of a stored
    row with a wallet address other than the row's raises the 404
    [NFT_NOT_FOUND] exception and leaves the table alone, exactly as polling
    an id that no row has. *)
Theorem status_wrong_owner (db : database) (nft : NFT.t) (walletAddress : string) :
  NoDup (ids db) -> In nft db -> walletAddress <> NFT.walletAddress nft ->
  get_nft_status (NFT.id nft) walletAddress db =
    (db, inl (HTTPException 404 [("error", JStr "NFT not found");
                                 ("code", JStr "NFT_NOT_FOUND")])) /\
  (forall id, ~ In id (ids db) ->
     get_nft_status id walletAddress db = get_nft_status (NFT.id nft) walletAddress db).
Proof.
  intros Hnd Hin Hw.
  assert (Hnone : forall id w,
            (forall row, In row db -> matches id w row = false) ->
            get_nft_status id w db = (db, inl NFT_NOT_FOUND)).
  { intros id w H. rewrite get_nft_status_eq.
    now rewrite (proj2 (find_none_iff (matches id w) db) H). }
  assert (E : get_nft_status (NFT.id nft) walletAddress db = (db, inl NFT_NOT_FOUND)).
  { apply Hnone. intros row Hrow.
    destruct (matches _ _ row) eqn:Hm; [|reflexivity].
    apply matches_true in Hm as [Ei Ew]. exfalso. apply Hw.
    now rewrite <- Ew, (primary_key_row db row nft Hnd Hrow Hin Ei). }
  split; [exact E|].
  intros id Hfresh. rewrite E. apply Hnone.
  intros row Hrow. unfold matches.
  now rewrite (proj1 (has_id_fresh id db) Hfresh row Hrow).
Qed.

Lemma status_wrong_owner_witness :
  get_nft_status "nft_1" "0xdef" db_A =
    (db_A, inl (HTTPException 404 [("error", JStr "NFT not found");
                                   ("code", JStr "NFT_NOT_FOUND")])) /\
  (forall id, ~ In id (ids db_A) ->
     get_nft_status id "0xdef" db_A = get_nft_status "nft_1" "0xdef" db_A).
Proof.
  apply (status_wrong_owner db_A (generated req_A t0 0) "0xdef").
  - repeat constructor; cbn; tauto.
  - left. reflexivity.
  - discriminate.
Defined.

(** ** Listing by owner *)

(** C7: [get_nft_collection] never writes; it raises the 404 [NO_NFTS]
    exception exactly when no row has the wallet address, and otherwise
    returns the rows that have it, all of them and only them, in table
    order, each rendered from its stored columns. *)
Theorem collection_by_owner (walletAddress : string) (db : database) :
  let owned := filter (has_walletAddress walletAddress) db in
  let out := get_nft_collection walletAddress db in
  fst out = db /\
  (snd out = inl (HTTPException 404 [("error", JStr "No NFTs found for this wallet");
                                     ("code", JStr "NO_NFTS")])
   <-> forall row, In row db -> NFT.walletAddress row <> walletAddress) /\
  (snd out = inr [("nfts", JList (map JDict (map collection_item owned)))]
   <-> exists row, In row db /\ NFT.walletAddress row = walletAddress) /\
  (forall row, In row owned <-> In row db /\ NFT.walletAddress row = walletAddress) /\
  (exists keep, List.length keep = List.length db /\
     owned = map fst (filter snd (combine db keep))) /\
  (forall row,
     get "id" (collection_item row) = Some (JStr (NFT.id row)) /\
     get "name" (collection_item row) = Some (JStr (NFT.name row)) /\
     get "status" (collection_item row) = Some (JStr (NFT.status row)) /\
     get "imageUrl" (collection_item row) = Some (json_of_str (NFT.imageUrl row)) /\
     get "dogKey" (collection_item row) = Some (JStr (NFT.dogKey row)) /\
     get "walletAddress" (collection_item row) = Some (JStr (NFT.walletAddress row)) /\
     get "attributes" (collection_item row) = Some (json_of_dicts (NFT.attributes row))).
Proof.
  intros owned out.
  assert (Hown : forall row, In row owned <->
                   In row db /\ NFT.walletAddress row = walletAddress).
  { intros row. unfold owned. rewrite filter_In. unfold has_walletAddress.
    now rewrite String.eqb_eq. }
  assert (E : out = match owned with
                    | [] => (db, inl NO_NFTS)
                    | _ => (db, inr [("nfts", JList (map JDict (map collection_item owned)))])
                    end).
  { unfold out, owned. rewrite get_nft_collection_eq. now destruct (filter _ db). }
  split; [|split; [|split; [|split; [|split]]]].
  - rewrite E. now destruct owned.
  - rewrite E. split.
    + intros H row Hin Hw. destruct owned as [|r l] eqn:Eo; [|discriminate].
      now apply (proj2 (Hown row)).
    + intros H. destruct owned as [|r l]; [reflexivity|]. exfalso.
      destruct (proj1 (Hown r) (or_introl eq_refl)) as [Hin Hw]. now apply (H r).
  - rewrite E. split.
    + intros H. destruct owned as [|r l]; [discriminate|].
      exists r. apply Hown. now left.
    + intros (row & Hrow). apply Hown in Hrow.
      destruct owned as [|r l]; [destruct Hrow | reflexivity].
  - exact Hown.
  - exists (map (has_walletAddress walletAddress) db). split; [apply length_map|].
    unfold owned. clear. induction db as [|row db IH]; [reflexivity|].
    cbn. destruct (has_walletAddress walletAddress row); cbn; now rewrite IH.
  - intros row. repeat split.
Qed.

(** ** What a poll may change *)

(** C9: in a table whose primary key is sound, [get_nft_status] either
    leaves the table as it is or rewrites the one row it found, and then
    only in [progress], [status] and [imageUrl]: the rows before and after
    it, and the row's other columns, are as they were. *)
Theorem status_frame (id walletAddress : string) (db : database) :
  NoDup (ids db) ->
  let db' := fst (get_nft_status id walletAddress db) in
  db' = db \/
  exists l1 nft nft' l2,
    db = l1 ++ nft :: l2 /\ db' = l1 ++ nft' :: l2 /\
    find (matches id walletAddress) db = Some nft /\
    NFT.id nft' = NFT.id nft /\
    NFT.name nft' = NFT.name nft /\
    NFT.description nft' = NFT.description nft /\
    NFT.dogKey nft' = NFT.dogKey nft /\
    NFT.walletAddress nft' = NFT.walletAddress nft /\
    NFT.attributes nft' = NFT.attributes nft /\
    NFT.contractAddress nft' = NFT.contractAddress nft /\
    NFT.tokenId nft' = NFT.tokenId nft /\
    NFT.createdAt nft' = NFT.createdAt nft /\
    NFT.mintedAt nft' = NFT.mintedAt nft.
Proof.
  intros Hnd db'. subst db'. rewrite get_nft_status_eq.
  destruct (find _ db) as [nft|] eqn:Hf; [|now left].
  destruct (String.eqb _ _); [|now left].
  right. cbn [fst].
  destruct (advance_split _ _ _ _ Hnd Hf) as (l1 & l2 & E & E').
  exists l1, nft, (advance id nft), l2.
  split; [exact E|]. split; [exact E'|]. split; [reflexivity|].
  pose proof (advance_frame id nft) as F. unfold same_frame in F.
  repeat match goal with H : _ /\ _ |- _ => destruct H end.
  repeat split; congruence.
Qed.

Lemma status_frame_witness :
  let db' := fst (get_nft_status "nft_1" "0xabc" db_A) in
  db' = db_A \/
  exists l1 nft nft' l2,
    db_A = l1 ++ nft :: l2 /\ db' = l1 ++ nft' :: l2 /\
    find (matches "nft_1" "0xabc") db_A = Some nft /\
    NFT.id nft' = NFT.id nft /\
    NFT.name nft' = NFT.name nft /\
    NFT.description nft' = NFT.description nft /\
    NFT.dogKey nft' = NFT.dogKey nft /\
    NFT.walletAddress nft' = NFT.walletAddress nft /\
    NFT.attributes nft' = NFT.attributes nft /\
    NFT.contractAddress nft' = NFT.contractAddress nft /\
    NFT.tokenId nft' = NFT.tokenId nft /\
    NFT.createdAt nft' = NFT.createdAt nft /\
    NFT.mintedAt nft' = NFT.mintedAt nft.
Proof.
  apply (status_frame "nft_1" "0xabc" db_A).
  repeat constructor; cbn; tauto.
Defined.

(** ** The checks and the wallet address *)

(** C10: [check_name] and [check_key] answer by the name, respectively the
    key, alone: two requests that agree on it get the same answer from the
    same table whatever their wallet addresses, and the table is untouched. *)
Theorem checks_ignore_wallet
    (db : database) (n1 n2 : CheckNameRequest.t) (k1 k2 : CheckKeyRequest.t) :
  CheckNameRequest.name n1 = CheckNameRequest.name n2 ->
  CheckKeyRequest.dogKey k1 = CheckKeyRequest.dogKey k2 ->
  snd (check_name n1 db) = snd (check_name n2 db) /\
  snd (check_key k1 db) = snd (check_key k2 db) /\
  fst (check_name n1 db) = db /\ fst (check_name n2 db) = db /\
  fst (check_key k1 db) = db /\ fst (check_key k2 db) = db.
Proof.
  intros En Ek. rewrite !check_name_eq, !check_key_eq, En, Ek.
  repeat split.
Qed.

Lemma checks_ignore_wallet_witness :
  let n1 := CheckNameRequest.mk "CryptoDog #1" "0xabc" in
  let n2 := CheckNameRequest.mk "CryptoDog #1" "0xdef" in
  let k1 := CheckKeyRequest.mk "KEY_1" "0xabc" in
  let k2 := CheckKeyRequest.mk "KEY_1" "0x123" in
  snd (check_name n1 db_A) = snd (check_name n2 db_A) /\
  snd (check_key k1 db_A) = snd (check_key k2 db_A) /\
  fst (check_name n1 db_A) = db_A /\ fst (check_name n2 db_A) = db_A /\
  fst (check_key k1 db_A) = db_A /\ fst (check_key k2 db_A) = db_A.
Proof.
  intros n1 n2 k1 k2.
  apply (checks_ignore_wallet db_A n1 n2 k1 k2); reflexivity.
Defined.

(** ** Further facts about the handlers *)

Lemma in_committed (obj row : NFT.t) (db : database) :
  In row db -> NFT.id obj = NFT.id row -> In obj (committed obj db).
Proof.
  intros Hin E. unfold committed. apply in_map_iff. exists row.
  split; [|assumption].
  now rewrite (proj2 (has_id_true (NFT.id obj) row) (eq_sym E)).
Qed.

(** The owner's poll of a stored row, in a table with a sound primary key. *)
Lemma own_poll (db : database) (row : NFT.t) :
  NoDup (ids db) -> In row db ->
  let row' := if String.eqb (NFT.status row) "generating"
              then advance (NFT.id row) row else row in
  let db' := fst (get_nft_status (NFT.id row) (NFT.walletAddress row) db) in
  get_nft_status (NFT.id row) (NFT.walletAddress row) db = (db', inr (status_dict row')) /\
  In row' db' /\
  NFT.id row' = NFT.id row /\ NFT.walletAddress row' = NFT.walletAddress row.
Proof.
  intros Hnd Hin. cbn zeta. rewrite get_nft_status_eq, (find_own_row db row Hnd Hin).
  destruct (String.eqb _ _); cbn [fst]; repeat split; try assumption.
  - apply (in_committed _ row); [assumption | apply advance_id].
  - apply advance_id.
  - symmetry. apply advance_frame.
Qed.

Lemma lifecycle_advance (id : string) (nft : NFT.t) :
  NFT.id nft = id -> NFT.status nft = "generating" -> lifecycle nft ->
  lifecycle (advance id nft) /\ (NFT.progress nft <= NFT.progress (advance id nft))%Z.
Proof.
  intros Ei Es [(_ & Hu & [Hp|Hp]) | (Hr & _)]; [| |congruence];
    unfold lifecycle, advance; cbn; rewrite Hp; cbn.
  - split; [left; repeat split; auto | lia].
  - split; [right; rewrite Ei; repeat split | lia].
Qed.

Lemma lifecycle_step (c : call) (db : database) :
  NoDup (ids db) -> Forall lifecycle db -> Forall lifecycle (fst (handle c db)).
Proof.
  intros Hnd Hall. destruct c as [r|r|r t|i w|w]; cbn [handle].
  - now rewrite check_name_eq.
  - now rewrite check_key_eq.
  - rewrite generate_nft_eq.
    destruct (existsb (has_dogKey _) db); [assumption|].
    destruct (existsb (has_id _) db); [assumption|].
    cbn [fst]. apply Forall_app. split; [assumption|].
    constructor; [|constructor]. left. cbn. auto.
  - rewrite get_nft_status_eq.
    destruct (find _ db) as [nft|] eqn:Hf; [|assumption].
    destruct (String.eqb_spec (NFT.status nft) "generating") as [Es|_]; [|assumption].
    cbn [fst].
    destruct (advance_split _ _ _ _ Hnd Hf) as (l1 & l2 & -> & ->).
    apply find_some in Hf as [_ Hm]. apply matches_true in Hm as [Ei _].
    apply Forall_app in Hall as [H1 H2]. inversion H2; subst.
    apply Forall_app. split; [assumption|].
    constructor; [|assumption]. now apply lifecycle_advance.
  - rewrite get_nft_collection_eq. now destruct (filter _ db).
Qed.

Lemma reachable_lifecycle (db : database) : reachable db -> Forall lifecycle db.
Proof.
  induction 1 as [|c db Hr IH]; [constructor|].
  apply lifecycle_step; [|assumption].
  now apply invariant_ids_NoDup, reachable_invariant.
Qed.

Lemma same_frame_refl (a : NFT.t) : same_frame a a.
Proof. unfold same_frame. repeat split. Qed.

Lemma same_frame_trans (a b c : NFT.t) :
  same_frame a b -> same_frame b c -> same_frame a c.
Proof.
  unfold same_frame. intros H1 H2.
  repeat match goal with H : _ /\ _ |- _ => destruct H end.
  repeat split; congruence.
Qed.

Lemma evolves_refl (a : NFT.t) : evolves a a.
Proof. split; [apply same_frame_refl|]. split; [lia|auto]. Qed.

Lemma evolves_trans (a b c : NFT.t) : evolves a b -> evolves b c -> evolves a c.
Proof.
  intros (F1 & P1 & R1) (F2 & P2 & R2).
  split; [eapply same_frame_trans; eassumption|]. split; [lia|].
  intros Hs. specialize (R1 Hs). subst b. auto.
Qed.

Lemma Forall2_evolves_refl (l : database) : Forall2 evolves l l.
Proof. induction l; constructor; auto using evolves_refl. Qed.

Lemma Forall2_evolves_trans (l1 l2 l3 : database) :
  Forall2 evolves l1 l2 -> Forall2 evolves l2 l3 -> Forall2 evolves l1 l3.
Proof.
  intros H. revert l3. induction H as [|a b l1 l2 Hab _ IH]; intros l3 H23.
  - inversion H23. constructor.
  - inversion H23 as [|b' c l2' l3' Hbc Hrest]; subst.
    constructor; [eapply evolves_trans; eassumption | auto].
Qed.

(** One call on a reachable table: the rows stay in place and evolve, new
    rows come last. *)
Lemma step_evolves (c : call) (db : database) :
  reachable db ->
  exists old new, fst (handle c db) = old ++ new /\ Forall2 evolves db old.
Proof.
  intros Hr.
  assert (Hsame : exists old new, db = old ++ new /\ Forall2 evolves db old).
  { exists db, []. split; [now rewrite app_nil_r | apply Forall2_evolves_refl]. }
  destruct c as [r|r|r t|i w|w]; cbn [handle].
  - now rewrite check_name_eq.
  - now rewrite check_key_eq.
  - rewrite generate_nft_eq.
    destruct (existsb (has_dogKey _) db); [assumption|].
    destruct (existsb (has_id _) db); [assumption|].
    cbn [fst]. eexists db, _. split; [reflexivity | apply Forall2_evolves_refl].
  - rewrite get_nft_status_eq.
    destruct (find _ db) as [nft|] eqn:Hf; [|assumption].
    destruct (String.eqb_spec (NFT.status nft) "generating") as [Es|_]; [|assumption].
    cbn [fst].
    pose proof (invariant_ids_NoDup db (reachable_invariant db Hr)) as Hnd.
    destruct (advance_split _ _ _ _ Hnd Hf) as (l1 & l2 & E & ->).
    pose proof (reachable_lifecycle db Hr) as Hall.
    apply find_some in Hf as [Hin Hm]. apply matches_true in Hm as [Ei _].
    rewrite Forall_forall in Hall. specialize (Hall nft Hin).
    destruct (lifecycle_advance i nft Ei Es Hall) as [_ Hle].
    exists (l1 ++ advance i nft :: l2), []. split; [now rewrite app_nil_r|].
    rewrite E. apply Forall2_app; [apply Forall2_evolves_refl|].
    constructor; [|apply Forall2_evolves_refl].
    split; [apply advance_frame|]. split; [assumption|].
    rewrite Es. discriminate.
  - rewrite get_nft_collection_eq. now destruct (filter _ db).
Qed.

Lemma reachable_run (cs : list call) (db : database) :
  reachable db -> reachable (run cs db).
Proof.
  revert db. induction cs as [|c cs IH]; intros db Hr; cbn [run]; [assumption|].
  apply IH. now constructor.
Qed.

Lemma existsb_eqb_true (f : NFT.t -> string) (k : string) (db : database) :
  existsb (fun row => String.eqb (f row) k) db = true <->
  exists row, In row db /\ f row = k.
Proof.
  rewrite existsb_exists. split; intros (row & Hin & E); exists row;
    (split; [assumption|]); now apply String.eqb_eq.
Qed.

Lemma advance_columns (id : string) (nft : NFT.t) :
  let p := Z.min (NFT.progress nft + 25) 100 in
  NFT.progress (advance id nft) = p /\
  NFT.status (advance id nft) = (if Z.eqb p 100 then "ready" else NFT.status nft) /\
  NFT.imageUrl (advance id nft) =
    (if Z.eqb p 100 then Some (image_url id) else NFT.imageUrl nft).
Proof.
  unfold advance. cbn. destruct (Z.eqb _ 100); cbn; repeat split.
Qed.

(** ** The two checks *)

(** X1: [check_name] always answers, and answers [available = false]
    exactly when some row has the requested name. *)
Theorem check_name_available (request : CheckNameRequest.t) (db : database) :
  exists resp,
    check_name request db = (db, inr resp) /\
    (get "available" resp = Some (JBool false) <->
     exists row, In row db /\ NFT.name row = CheckNameRequest.name request) /\
    (get "available" resp = Some (JBool true) <->
     forall row, In row db -> NFT.name row <> CheckNameRequest.name request).
Proof.
  rewrite check_name_eq. eexists. split; [reflexivity|].
  destruct (existsb (has_name _) db) eqn:E; cbn.
  - apply (existsb_eqb_true NFT.name) in E. split; [tauto|].
    split; [discriminate|]. intros H. destruct E as (row & Hin & En).
    now destruct (H row Hin).
  - apply (existsb_eqb_false NFT.name) in E. split.
    + split; [discriminate|]. intros (row & Hin & En). exfalso. apply E.
      rewrite <- En. now apply in_map.
    + split; [|reflexivity]. intros _ row Hin En. apply E.
      rewrite <- En. now apply in_map.
Qed.

(** X2: [check_key] always answers with [valid = true], and answers
    [unique = false] exactly when some row has the requested [dogKey]. *)
Theorem check_key_unique (request : CheckKeyRequest.t) (db : database) :
  exists resp,
    check_key request db = (db, inr resp) /\
    get "valid" resp = Some (JBool true) /\
    (get "unique" resp = Some (JBool false) <->
     exists row, In row db /\ NFT.dogKey row = CheckKeyRequest.dogKey request) /\
    (get "unique" resp = Some (JBool true) <->
     forall row, In row db -> NFT.dogKey row <> CheckKeyRequest.dogKey request).
Proof.
  rewrite check_key_eq. eexists. split; [reflexivity|].
  destruct (existsb (has_dogKey _) db) eqn:E; cbn; (split; [reflexivity|]).
  - apply (existsb_eqb_true NFT.dogKey) in E. split; [tauto|].
    split; [discriminate|]. intros H. destruct E as (row & Hin & En).
    now destruct (H row Hin).
  - apply (existsb_eqb_false NFT.dogKey) in E. split.
    + split; [discriminate|]. intros (row & Hin & En). exfalso. apply E.
      rewrite <- En. now apply in_map.
    + split; [|reflexivity]. intros _ row Hin En. apply E.
      rewrite <- En. now apply in_map.
Qed.

(** ** Identifiers *)

(** X3: the ids of a reachable table are [nft_1], [nft_2], ... in insertion
    order, one per row, so no two rows share an id. *)
Theorem reachable_ids (db : database) :
  reachable db ->
  ids db = map nft_id (seq 1 (List.length db)) /\ NoDup (ids db).
Proof.
  intros Hr. pose proof (reachable_invariant db Hr) as Hinv.
  split; [apply Hinv | now apply invariant_ids_NoDup].
Qed.

Lemma reachable_ids_witness :
  ids db_ready = map nft_id (seq 1 (List.length db_ready)) /\ NoDup (ids db_ready).
Proof. apply (reachable_ids db_ready). exact reachable_db_ready. Defined.

(** X4: on a reachable table a request whose [dogKey] no row has always
    succeeds: the insert is never refused, exactly one row is appended, its
    id is [nft_] followed by the new row count and is new to the table, and
    the row stores the request as sent, stamped with the creation time. *)
Theorem generate_fresh_key
    (request : GenerateNFTRequest.t) (utcnow : datetime) (db : database) :
  reachable db ->
  (forall row, In row db -> NFT.dogKey row <> GenerateNFTRequest.dogKey request) ->
  exists row resp,
    generate_nft request utcnow db = (db ++ [row], inr resp) /\
    NFT.id row = nft_id (List.length db + 1) /\
    ~ In (NFT.id row) (ids db) /\
    get "id" resp = Some (JStr (NFT.id row)) /\
    NFT.name row = GenerateNFTRequest.name request /\
    NFT.description row = GenerateNFTRequest.description request /\
    NFT.dogKey row = GenerateNFTRequest.dogKey request /\
    NFT.walletAddress row = GenerateNFTRequest.walletAddress request /\
    NFT.attributes row = GenerateNFTRequest.attributes request /\
    NFT.createdAt row = utcnow /\
    NFT.contractAddress row = None /\ NFT.tokenId row = None /\
    NFT.mintedAt row = None.
Proof.
  intros Hr Hfresh. pose proof (reachable_invariant db Hr) as Hinv.
  rewrite generate_nft_eq.
  assert (Ek : existsb (has_dogKey (GenerateNFTRequest.dogKey request)) db = false).
  { apply (existsb_eqb_false NFT.dogKey). intros Hin.
    apply in_map_iff in Hin as (row & E & Hin). now apply (Hfresh row). }
  rewrite Ek, (invariant_next_id db Hinv).
  eexists _, _. split; [reflexivity|]. cbn.
  split; [reflexivity|]. split; [|repeat split].
  apply existsb_has_id. now apply invariant_next_id.
Qed.

Lemma generate_fresh_key_witness :
  exists row resp,
    generate_nft req_B t0 db_A = (db_A ++ [row], inr resp) /\
    NFT.id row = nft_id (List.length db_A + 1) /\
    ~ In (NFT.id row) (ids db_A) /\
    get "id" resp = Some (JStr (NFT.id row)) /\
    NFT.name row = GenerateNFTRequest.name req_B /\
    NFT.description row = GenerateNFTRequest.description req_B /\
    NFT.dogKey row = GenerateNFTRequest.dogKey req_B /\
    NFT.walletAddress row = GenerateNFTRequest.walletAddress req_B /\
    NFT.attributes row = GenerateNFTRequest.attributes req_B /\
    NFT.createdAt row = t0 /\
    NFT.contractAddress row = None /\ NFT.tokenId row = None /\
    NFT.mintedAt row = None.
Proof.
  apply (generate_fresh_key req_B t0 db_A).
  - exact reachable_db_A.
  - intros row [<-|[]]. discriminate.
Defined.

(** X5: on a reachable table [check_key] predicts [generate_nft]: the
    request is accepted exactly when the check of its [dogKey] answers
    [unique = true], whatever wallet address the check is made with. *)
Theorem check_key_predicts_generate
    (request : GenerateNFTRequest.t) (utcnow : datetime)
    (walletAddress : string) (db : database) :
  reachable db ->
  field "unique"
    (snd (check_key (CheckKeyRequest.mk (GenerateNFTRequest.dogKey request) walletAddress) db))
  = Some (JBool true)
  <-> exists resp, snd (generate_nft request utcnow db) = inr resp.
Proof.
  intros Hr. rewrite check_key_eq, generate_nft_eq.
  cbn [CheckKeyRequest.dogKey snd field].
  rewrite (invariant_next_id db (reachable_invariant db Hr)).
  destruct (existsb (has_dogKey _) db); cbn.
  - split; [discriminate|]. intros (resp & H). discriminate.
  - split; [eauto | reflexivity].
Qed.

Lemma check_key_predicts_generate_witness :
  field "unique" (snd (check_key (CheckKeyRequest.mk "KEY_2" "0xabc") db_A))
  = Some (JBool true)
  <-> exists resp, snd (generate_nft req_B t0 db_A) = inr resp.
Proof.
  apply (check_key_predicts_generate req_B t0 "0xabc" db_A).
  exact reachable_db_A.
Defined.

(** X6: what [generate_nft] stored is found again: after a successful call
    the key check answers [unique = false] and the name check
    [available = false] for any caller, and the owner's collection is the
    owner's older rows followed by the new one, under the id of the answer. *)
Theorem generate_then_lookup
    (request : GenerateNFTRequest.t) (utcnow : datetime)
    (db db1 : database) (resp : dict) (walletAddress : string) :
  generate_nft request utcnow db = (db1, inr resp) ->
  field "unique"
    (snd (check_key (CheckKeyRequest.mk (GenerateNFTRequest.dogKey request) walletAddress) db1))
  = Some (JBool false) /\
  field "available"
    (snd (check_name (CheckNameRequest.mk (GenerateNFTRequest.name request) walletAddress) db1))
  = Some (JBool false) /\
  exists row,
    snd (get_nft_collection (GenerateNFTRequest.walletAddress request) db1) =
      inr [("nfts",
            JList (map JDict
                     (map collection_item
                        (filter (has_walletAddress (GenerateNFTRequest.walletAddress request)) db)
                      ++ [collection_item row])))] /\
    get "id" (collection_item row) = get "id" resp /\
    get "name" (collection_item row) = Some (JStr (GenerateNFTRequest.name request)) /\
    get "dogKey" (collection_item row) = Some (JStr (GenerateNFTRequest.dogKey request)) /\
    get "attributes" (collection_item row)
      = Some (json_of_dicts (GenerateNFTRequest.attributes request)) /\
    get "createdAt" (collection_item row) = Some (JStr (isoformat utcnow)).
Proof.
  rewrite generate_nft_eq.
  destruct (existsb (has_dogKey _) db); [discriminate|].
  destruct (existsb (has_id _) db); [discriminate|].
  intros H. injection H as <- <-.
  set (row := generated request utcnow (List.length db)).
  rewrite check_key_eq, check_name_eq, get_nft_collection_eq.
  cbn [CheckKeyRequest.dogKey CheckNameRequest.name snd].
  rewrite !existsb_app, filter_app. cbn [existsb filter].
  unfold has_dogKey at 2, has_name at 2, has_walletAddress at 2.
  cbn [row generated NFT.dogKey NFT.name NFT.walletAddress].
  rewrite !String.eqb_refl, !orb_true_r. fold row.
  split; [reflexivity|]. split; [reflexivity|].
  exists row. split; [|repeat split].
  rewrite <- map_app with (f := collection_item) (l' := [row]).
  now destruct (filter _ db).
Qed.

Lemma generate_then_lookup_witness :
  field "unique" (snd (check_key (CheckKeyRequest.mk "KEY_1" "0xdef") db_A))
  = Some (JBool false) /\
  field "available" (snd (check_name (CheckNameRequest.mk "CryptoDog #1" "0xdef") db_A))
  = Some (JBool false) /\
  exists row,
    snd (get_nft_collection "0xabc" db_A) =
      inr [("nfts",
            JList (map JDict
                     (map collection_item (filter (has_walletAddress "0xabc") [])
                      ++ [collection_item row])))] /\
    get "id" (collection_item row) = get "id" resp_A /\
    get "name" (collection_item row) = Some (JStr "CryptoDog #1") /\
    get "dogKey" (collection_item row) = Some (JStr "KEY_1") /\
    get "attributes" (collection_item row)
      = Some (json_of_dicts (GenerateNFTRequest.attributes req_A)) /\
    get "createdAt" (collection_item row) = Some (JStr (isoformat t0)).
Proof.
  apply (generate_then_lookup req_A t0 [] db_A resp_A "0xdef"). reflexivity.
Defined.

(** ** The life of a row *)

(** X7: every row of a reachable table is in one of three states:
    generating at progress 50 or 75 with no image, or ready at progress 100
    with the URL of its id. In particular progress stays within 0..100 and
    is 100 exactly when the status is ready. *)
Theorem reachable_rows (db : database) (row : NFT.t) :
  reachable db -> In row db ->
  ((NFT.status row = "generating" /\ NFT.imageUrl row = None /\
    (NFT.progress row = 50%Z \/ NFT.progress row = 75%Z)) \/
   (NFT.status row = "ready" /\ NFT.imageUrl row = Some (image_url (NFT.id row)) /\
    NFT.progress row = 100%Z)) /\
  (0 <= NFT.progress row <= 100)%Z /\
  (NFT.progress row = 100%Z <-> NFT.status row = "ready").
Proof.
  intros Hr Hin. pose proof (reachable_lifecycle db Hr) as Hall.
  rewrite Forall_forall in Hall. specialize (Hall row Hin).
  split; [exact Hall|].
  destruct Hall as [(Hs & _ & [Hp|Hp]) | (Hs & _ & Hp)]; rewrite Hp, Hs;
    (split; [lia|]); split; intros H; try reflexivity; discriminate.
Qed.

Lemma reachable_rows_witness :
  ((NFT.status row_ready = "generating" /\ NFT.imageUrl row_ready = None /\
    (NFT.progress row_ready = 50%Z \/ NFT.progress row_ready = 75%Z)) \/
   (NFT.status row_ready = "ready" /\
    NFT.imageUrl row_ready = Some (image_url (NFT.id row_ready)) /\
    NFT.progress row_ready = 100%Z)) /\
  (0 <= NFT.progress row_ready <= 100)%Z /\
  (NFT.progress row_ready = 100%Z <-> NFT.status row_ready = "ready").
Proof.
  apply (reachable_rows db_ready row_ready).
  - exact reachable_db_ready.
  - left. reflexivity.
Defined.

(** X8: two polls by the owner are enough for any row of a reachable table:
    both polls answer, and the second answers ready, progress 100 and the
    URL of the id. *)
Theorem two_polls_make_ready (db : database) (row : NFT.t) :
  reachable db -> In row db ->
  exists r1 r2,
    poll 2 (NFT.id row) (NFT.walletAddress row) db = [inr r1; inr r2] /\
    get "status" r2 = Some (JStr "ready") /\
    get "progress" r2 = Some (JInt 100) /\
    get "imageUrl" r2 = Some (JStr (image_url (NFT.id row))).
Proof.
  intros Hr Hin.
  pose proof (reachable_lifecycle db Hr) as Hall.
  rewrite Forall_forall in Hall. specialize (Hall row Hin).
  pose proof (invariant_ids_NoDup db (reachable_invariant db Hr)) as Hnd.
  set (i := NFT.id row). set (w := NFT.walletAddress row).
  destruct (own_poll db row Hnd Hin) as (E1 & Hin1 & Ei1 & Ew1).
  fold i w in E1, Hin1, Ei1, Ew1.
  set (db1 := fst (get_nft_status i w db)) in *.
  set (row1 := if String.eqb (NFT.status row) "generating"
               then advance i row else row) in *.
  assert (Hr1 : reachable db1) by exact (reachable_step (GetStatus i w) db Hr).
  pose proof (invariant_ids_NoDup db1 (reachable_invariant db1 Hr1)) as Hnd1.
  destruct (own_poll db1 row1 Hnd1 Hin1) as (E2 & _).
  rewrite Ei1, Ew1 in E2.
  cbn [poll]. rewrite E1, E2.
  eexists _, _. split; [reflexivity|].
  pose proof (advance_columns i row) as (Ap & As & Au). cbn zeta in *.
  destruct Hall as [(Hs & Hu & [Hp|Hp]) | (Hs & Hu & Hp)]; subst row1.
  - rewrite Hs in *. cbn [String.eqb Ascii.eqb Bool.eqb].
    rewrite Hp in Ap, As, Au. cbn in Ap, As, Au.
    rewrite As. cbn [String.eqb Ascii.eqb Bool.eqb].
    pose proof (advance_columns i (advance i row)) as (Bp & Bs & Bu).
    cbn zeta in *. rewrite Ap in Bp, Bs, Bu. cbn in Bp, Bs, Bu.
    cbn [status_dict get String.eqb Ascii.eqb Bool.eqb json_of_str].
    now rewrite Bp, Bs, Bu.
  - rewrite Hs in *. cbn [String.eqb Ascii.eqb Bool.eqb].
    rewrite Hp in Ap, As, Au. cbn in Ap, As, Au.
    rewrite As. cbn [String.eqb Ascii.eqb Bool.eqb].
    cbn [status_dict get String.eqb Ascii.eqb Bool.eqb json_of_str].
    now rewrite Ap, As, Au.
  - rewrite Hs. cbn [String.eqb Ascii.eqb Bool.eqb]. rewrite Hs.
    cbn [String.eqb Ascii.eqb Bool.eqb].
    cbn [status_dict get String.eqb Ascii.eqb Bool.eqb json_of_str].
    now rewrite Hs, Hu, Hp.
Qed.

Lemma two_polls_make_ready_witness :
  exists r1 r2,
    poll 2 "nft_1" "0xabc" db_A = [inr r1; inr r2] /\
    get "status" r2 = Some (JStr "ready") /\
    get "progress" r2 = Some (JInt 100) /\
    get "imageUrl" r2 = Some (JStr (image_url "nft_1")).
Proof.
  apply (two_polls_make_ready db_A (generated req_A t0 0)).
  - exact reachable_db_A.
  - left. reflexivity.
Defined.

(** X9: over any sequence of calls on a reachable table no row is deleted
    or moved: the rows that were there stay first and in order, each with
    the columns it was created with, a progress that has not decreased and,
    once ready, unchanged altogether; rows created since come after them. *)
Theorem rows_evolve (cs : list call) (db : database) :
  reachable db ->
  exists old new,
    run cs db = old ++ new /\
    Forall2 (fun a b =>
               same_frame a b /\ (NFT.progress a <= NFT.progress b)%Z /\
               (NFT.status a = "ready" -> b = a)) db old.
Proof.
  change (reachable db ->
          exists old new, run cs db = old ++ new /\ Forall2 evolves db old).
  revert db. induction cs as [|c cs IH]; intros db Hr; cbn [run].
  - exists db, []. split; [now rewrite app_nil_r | apply Forall2_evolves_refl].
  - destruct (step_evolves c db Hr) as (old1 & new1 & E1 & F1).
    destruct (IH _ (reachable_step c db Hr)) as (old2 & new2 & E2 & F2).
    rewrite E1 in F2. apply Forall2_app_inv_l in F2 as (o & n & Fo & _ & ->).
    exists o, (n ++ new2). split; [now rewrite E2, app_assoc|].
    eapply Forall2_evolves_trans; eassumption.
Qed.

Lemma rows_evolve_witness :
  exists old new,
    run [GetStatus "nft_1" "0xabc"; Generate req_B t0; GetStatus "nft_1" "0xabc"] db_A
      = old ++ new /\
    Forall2 (fun a b =>
               same_frame a b /\ (NFT.progress a <= NFT.progress b)%Z /\
               (NFT.status a = "ready" -> b = a)) db_A old.
Proof.
  apply (rows_evolve _ db_A). exact reachable_db_A.
Defined.

(** ** Failures and other owners *)

(** X10: a call that raises has written nothing, and each handler raises
    only its own exception: the checks none, [generate_nft] the duplicate
    key (or the refused insert), [get_nft_status] not-found,
    [get_nft_collection] no-NFTs. *)
Theorem errors_leave_table (c : call) (db : database) (e : exn) :
  snd (handle c db) = inl e ->
  fst (handle c db) = db /\
  match c with
  | CheckName _ | CheckKey _ => False
  | Generate _ _ => e = DUPLICATE_KEY \/ e = IntegrityError
  | GetStatus _ _ => e = NFT_NOT_FOUND
  | GetCollection _ => e = NO_NFTS
  end.
Proof.
  destruct c as [r|r|r t|i w|w]; cbn [handle].
  - rewrite check_name_eq. discriminate.
  - rewrite check_key_eq. discriminate.
  - rewrite generate_nft_eq.
    destruct (existsb (has_dogKey _) db).
    + intros H. injection H as <-. auto.
    + destruct (existsb (has_id _) db); [|discriminate].
      intros H. injection H as <-. auto.
  - rewrite get_nft_status_eq. destruct (find _ db) as [nft|].
    + destruct (String.eqb _ _); discriminate.
    + intros H. injection H as <-. auto.
  - rewrite get_nft_collection_eq. destruct (filter _ db); [|discriminate].
    intros H. injection H as <-. auto.
Qed.

Lemma errors_leave_table_witness :
  fst (handle (GetStatus "nft_1" "0xdef") db_A) = db_A /\ NFT_NOT_FOUND = NFT_NOT_FOUND.
Proof.
  apply (errors_leave_table (GetStatus "nft_1" "0xdef") db_A NFT_NOT_FOUND).
  reflexivity.
Defined.

(** X11: [get_nft_status] raises not-found exactly when no row has both the
    id and the wallet address; otherwise it answers, echoing the id and the
    wallet address it was called with. *)
Theorem status_found (id walletAddress : string) (db : database) :
  (snd (get_nft_status id walletAddress db) = inl NFT_NOT_FOUND <->
   forall row, In row db -> NFT.id row = id -> NFT.walletAddress row <> walletAddress) /\
  ((exists resp, snd (get_nft_status id walletAddress db) = inr resp /\
                 get "id" resp = Some (JStr id) /\
                 get "walletAddress" resp = Some (JStr walletAddress)) <->
   exists row, In row db /\ NFT.id row = id /\ NFT.walletAddress row = walletAddress).
Proof.
  rewrite get_nft_status_eq.
  destruct (find _ db) as [nft|] eqn:Hf.
  - pose proof (find_some _ _ Hf) as [Hin Hm]. apply matches_true in Hm as [Ei Ew].
    assert (Hex : exists row, In row db /\ NFT.id row = id /\
                              NFT.walletAddress row = walletAddress) by eauto.
    assert (Hd : forall row, NFT.id row = id -> NFT.walletAddress row = walletAddress ->
                 get "id" (status_dict row) = Some (JStr id) /\
                 get "walletAddress" (status_dict row) = Some (JStr walletAddress)).
    { intros row <- <-. split; reflexivity. }
    split.
    + split.
      * destruct (String.eqb _ _); discriminate.
      * intros H. now destruct (H nft Hin Ei).
    + split; [intros _; exact Hex|]. intros _.
      pose proof (advance_frame id nft) as (Fi & _ & _ & _ & Fw & _).
      destruct (String.eqb _ _); cbn [snd]; eexists; (split; [reflexivity|]);
        apply Hd; congruence.
  - pose proof (find_none _ _ Hf) as Hn. cbn [snd]. split.
    + split; [|reflexivity]. intros _ row Hin Ei Ew.
      specialize (Hn row Hin).
      assert (matches id walletAddress row = true) by now apply matches_true.
      congruence.
    + split.
      * intros (resp & H & _). discriminate.
      * intros (row & Hin & Ei & Ew). specialize (Hn row Hin).
        assert (matches id walletAddress row = true) by now apply matches_true.
        congruence.
Qed.

Lemma filter_split_other (w : string) (l1 l2 : database) (a b : NFT.t) :
  has_walletAddress w a = false -> has_walletAddress w b = false ->
  filter (has_walletAddress w) (l1 ++ a :: l2) = filter (has_walletAddress w) (l1 ++ b :: l2).
Proof. intros Ha Hb. rewrite !filter_app. cbn [filter]. now rewrite Ha, Hb. Qed.

(** X12: a call made for one wallet address leaves every other owner's
    collection as it was: [generate_nft] and [get_nft_status] insert or
    assign rows of their own wallet address only, the other calls none. *)
Theorem other_wallets_untouched (c : call) (walletAddress : string) (db : database) :
  NoDup (ids db) ->
  writes_for c <> Some walletAddress ->
  filter (has_walletAddress walletAddress) (fst (handle c db))
    = filter (has_walletAddress walletAddress) db /\
  snd (get_nft_collection walletAddress (fst (handle c db)))
    = snd (get_nft_collection walletAddress db).
Proof.
  intros Hnd Hw.
  assert (E : filter (has_walletAddress walletAddress) (fst (handle c db))
              = filter (has_walletAddress walletAddress) db).
  { destruct c as [r|r|r t|i w|w]; cbn [handle writes_for] in *.
    - now rewrite check_name_eq.
    - now rewrite check_key_eq.
    - rewrite generate_nft_eq.
      destruct (existsb (has_dogKey _) db); [reflexivity|].
      destruct (existsb (has_id _) db); [reflexivity|].
      cbn [fst]. rewrite filter_app. cbn [filter].
      unfold has_walletAddress at 2. cbn [generated NFT.walletAddress].
      destruct (String.eqb_spec (GenerateNFTRequest.walletAddress r) walletAddress)
        as [Eq|_]; [congruence | apply app_nil_r].
    - rewrite get_nft_status_eq.
      destruct (find _ db) as [nft|] eqn:Hf; [|reflexivity].
      destruct (String.eqb _ _); [|reflexivity]. cbn [fst].
      destruct (advance_split _ _ _ _ Hnd Hf) as (l1 & l2 & E & ->).
      rewrite E.
      apply find_some in Hf as [_ Hm]. apply matches_true in Hm as [_ Ew].
      pose proof (advance_frame i nft) as (_ & _ & _ & _ & Fw & _).
      apply filter_split_other; unfold has_walletAddress;
        apply String.eqb_neq; congruence.
    - rewrite get_nft_collection_eq.
      now destruct (filter (has_walletAddress w) db). }
  split; [exact E|]. rewrite !get_nft_collection_eq, E.
  now destruct (filter (has_walletAddress walletAddress) db).
Qed.

Lemma other_wallets_untouched_witness :
  filter (has_walletAddress "0xdef") (fst (handle (GetStatus "nft_1" "0xabc") db_A))
    = filter (has_walletAddress "0xdef") db_A /\
  snd (get_nft_collection "0xdef" (fst (handle (GetStatus "nft_1" "0xabc") db_A)))
    = snd (get_nft_collection "0xdef" db_A).
Proof.
  apply (other_wallets_untouched (GetStatus "nft_1" "0xabc") "0xdef" db_A).
  - repeat constructor; cbn; tauto.
  - discriminate.
Defined.

(** X13: what a poll answers is what the owner's collection shows next: the
    collection of the polling wallet address, read from the table the poll
    left, has an item with the id, status and imageUrl of the answer. *)
Theorem poll_then_collection
    (id walletAddress : string) (db db' : database) (resp : dict) :
  get_nft_status id walletAddress db = (db', inr resp) ->
  exists items item,
    get_nft_collection walletAddress db' = (db', inr [("nfts", JList items)]) /\
    In (JDict item) items /\
    get "id" item = get "id" resp /\
    get "status" item = get "status" resp /\
    get "imageUrl" item = get "imageUrl" resp.
Proof.
  rewrite get_nft_status_eq.
  destruct (find _ db) as [nft|] eqn:Hf; [|discriminate].
  apply find_some in Hf as [Hin Hm]. apply matches_true in Hm as [Ei Ew].
  assert (Hgen : forall row, In row db' -> NFT.walletAddress row = walletAddress ->
            exists items item,
              get_nft_collection walletAddress db' = (db', inr [("nfts", JList items)]) /\
              In (JDict item) items /\
              get "id" item = get "id" (status_dict row) /\
              get "status" item = get "status" (status_dict row) /\
              get "imageUrl" item = get "imageUrl" (status_dict row)).
  { intros row Hrow Hw. rewrite get_nft_collection_eq.
    assert (Hf : In row (filter (has_walletAddress walletAddress) db')).
    { apply filter_In. split; [assumption|]. unfold has_walletAddress.
      now apply String.eqb_eq. }
    destruct (filter _ db') as [|r l] eqn:El; [destruct Hf|].
    eexists _, (collection_item row). split; [reflexivity|].
    split; [|repeat split]. now apply in_map, in_map. }
  destruct (String.eqb _ _); intros H; injection H as <- <-.
  - apply Hgen.
    + apply (in_committed _ nft); [assumption | apply advance_id].
    + pose proof (advance_frame id nft) as (_ & _ & _ & _ & Fw & _). congruence.
  - now apply Hgen.
Qed.

Lemma poll_then_collection_witness :
  exists items item,
    get_nft_collection "0xabc" db_ready = (db_ready, inr [("nfts", JList items)]) /\
    In (JDict item) items /\
    get "id" item = get "id" (status_dict row_ready) /\
    get "status" item = get "status" (status_dict row_ready) /\
    get "imageUrl" item = get "imageUrl" (status_dict row_ready).
Proof.
  apply (poll_then_collection "nft_1" "0xabc" db_ready db_ready (status_dict row_ready)).
  reflexivity.
Defined.
